(** * The memory-formation pipeline of [LangChainService]

    A shallow embedding of [app/services/langchain_service.py] and of the
    [Memory] model of [app/models/memory.py].

    The three [ConversationChain] agents and the knowledge-graph memory
    they share belong to langchain; the database session belongs to
    SQLAlchemy.  The service code is embedded statement by statement over
    a world that holds the shared memory, the heap of [Memory] objects,
    the sessions, the [memories] table and a log of the calls made. *)

From Stdlib Require Import String Ascii ZArith Bool Lia.
From stdpp Require Import base list strings.

Local Open Scope Z_scope.
Local Open Scope string_scope.
Local Open Scope list_scope.

(** ** Python strings

    A [str] is modelled as a [string] of bytes (its UTF-8 encoding).
    [str.lower] changes ASCII letters as [ascii_lower] does; no character
    outside ASCII lower-cases to one of the letters [y], [e], [s], and the
    bytes of a multi-byte character are all above 127, so the test
    ["yes" in confirmation.lower()] gives the same answer on the bytes as
    on the characters. *)

Definition ascii_lower (c : ascii) : ascii :=
  let n := nat_of_ascii c in
  if ((65 <=? n)%nat && (n <=? 90)%nat)%bool then ascii_of_nat (n + 32) else c.

Fixpoint lower (s : string) : string :=
  match s with
  | EmptyString => EmptyString
  | String c s' => String (ascii_lower c) (lower s')
  end.

(** [contains needle haystack] is Python's [needle in haystack] on [str]. *)
Fixpoint contains (needle haystack : string) : bool :=
  String.prefix needle haystack
  || match haystack with
     | EmptyString => false
     | String _ rest => contains needle rest
     end.

(** Truth value of a [str] in a condition: [if analysis:]. *)
Definition truthy (s : string) : bool :=
  match s with
  | EmptyString => false
  | String _ _ => true
  end.

Definition nl : string := String (ascii_of_nat 10) EmptyString.
Definition dquote : string := String (ascii_of_nat 34) EmptyString.

(** Joins the lines of a triple-quoted literal. *)
Fixpoint unlines (ls : list string) : string :=
  match ls with
  | [] => EmptyString
  | [l] => l
  | l :: rest => l +:+ nl +:+ unlines rest
  end.

(** ** The agents of [LangChainService.__init__] *)

Record OpenAI := { temperature : Z }.

Record PromptTemplate := {
  input_variables : list string;
  template : string
}.

(** A [ConversationChain]; its [memory] is the one store of the world,
    shared by the three agents. *)
Record ConversationChain := {
  llm : OpenAI;
  prompt : PromptTemplate;
  input_key : string;
  output_key : string
}.

Definition the_llm : OpenAI := {| temperature := 0 |}.

Definition template_head : list string :=
  [ "The following is a friendly conversation between a human and an AI. The AI is talkative and provides lots of specific details from its context. ";
    "        If the AI does not know the answer to a question, it truthfully says it does not know. The AI ONLY uses information contained in the "
      +:+ dquote +:+ "Relevant Information" +:+ dquote
      +:+ " section and does not hallucinate.";
    EmptyString;
    "        Relevant Information:";
    EmptyString;
    "        {history}";
    EmptyString ].

Definition template_tail : list string :=
  [ "        Conversation:";
    "        Human: {input}";
    "        AI:";
    "        " ].

Definition agent1_prompt_template : string :=
  unlines (template_head ++ template_tail).

Definition agent2_prompt_template : string :=
  unlines (template_head
           ++ ["        Analyze the response for potential memory"; EmptyString]
           ++ template_tail).

Definition agent3_prompt_template : string :=
  unlines (template_head
           ++ ["        Confirm if the memory should be saved."; EmptyString]
           ++ template_tail).

Definition make_chain (t : string) : ConversationChain :=
  {| llm := the_llm;
     prompt := {| input_variables := ["history"; "input"]; template := t |};
     input_key := "input";
     output_key := "response" |}.

Definition agent1 : ConversationChain := make_chain agent1_prompt_template.
Definition agent2 : ConversationChain := make_chain agent2_prompt_template.
Definition agent3 : ConversationChain := make_chain agent3_prompt_template.

(** The f-string that [analyze_response] gives to the second agent. *)
Definition analysis_input (question response : string) : string :=
  "Question: " +:+ question +:+ nl +:+ "Response: " +:+ response +:+ nl
  +:+ "Should this be remembered?".

(** The f-string that [confirm_memory] gives to the third agent. *)
Definition confirmation_input (analysis : string) : string :=
  "Analysis: " +:+ analysis +:+ nl +:+ "Is this a valid memory?".

(** ** The [Memory] model of [app/models/memory.py] *)

Module models.

Record Column (A : Type) := mkColumn {
  primary_key : bool;
  index : bool;
  default : option A
}.
Arguments mkColumn {A}.
Arguments primary_key {A}.
Arguments index {A}.
Arguments default {A}.

Definition id_column : Column Z :=
  {| primary_key := true; index := true; default := None |}.
Definition question_column : Column string :=
  {| primary_key := false; index := true; default := None |}.
Definition response_column : Column string :=
  {| primary_key := false; index := false; default := None |}.
Definition long_term_column : Column bool :=
  {| primary_key := false; index := false; default := Some false |}.

(** A [Memory] object in Python: an attribute that was not given to the
    constructor is [None]. *)
Record Memory := {
  id : option Z;
  question : option string;
  response : option string;
  long_term : option bool
}.

(** [Memory(question=..., response=..., long_term=...)]; each keyword
    may be left out. *)
Definition new (question response : option string) (long_term : option bool)
  : Memory :=
  {| id := None; question := question; response := response;
     long_term := long_term |}.

(** A row of table [memories]. *)
Record Row := {
  row_id : Z;
  row_question : option string;
  row_response : option string;
  row_long_term : option bool
}.

(** The value an INSERT writes for a column: the attribute, or the
    column's default where the attribute is [None]. *)
Definition insert_value {A} (c : Column A) (v : option A) : option A :=
  match v with
  | Some x => Some x
  | None => default c
  end.

(** The integer primary key of a new row, a key that no row of the table
    has: taken as one above the largest, as an auto-increment key is on a
    table of positive keys below the bound of the engine. *)
Definition fresh_id (table : list Row) : Z :=
  1 + foldr (fun r acc => Z.max (row_id r) acc) 0 table.

Definition to_row (i : Z) (m : Memory) : Row :=
  {| row_id := i;
     row_question := insert_value question_column (question m);
     row_response := insert_value response_column (response m);
     row_long_term := insert_value long_term_column (long_term m) |}.

Definition of_row (r : Row) : Memory :=
  {| id := Some (row_id r);
     question := row_question r;
     response := row_response r;
     long_term := row_long_term r |}.

End models.

(** ** Substrings and casing *)

(** [s] has a substring that reads [yes] in some casing. *)
Definition has_yes (s : string) : Prop :=
  exists pre mid post, s = pre +:+ mid +:+ post /\ lower mid = "yes".

(** ** Sessions, events and the world *)

(** A session of [SessionLocal]: the objects added and not yet flushed
    (references into the heap), and whether [close] was called. *)
Record Session := {
  pending : list nat;
  closed : bool
}.

Inductive DbOp := op_add | op_commit | op_refresh | op_rollback | op_close.

Section Service.

(** The knowledge-graph store of [ConversationKGMemory], the messages of
    a history, Python's exceptions and the mapping that
    [load_memory_variables] returns. *)
Context {Store BaseMessage Exn MemoryVariables : Type}.

(** The calls the service makes, in order. *)
Inductive Event :=
| ev_predict (chain : ConversationChain) (input : string)
             (history : list BaseMessage)
| ev_save_memory (question response : string) (long_term : bool)
| ev_db (db : nat) (op : DbOp).

Record World := {
  self_memory : Store;            (* [self.memory], shared by the agents *)
  heap : list models.Memory;      (* the [Memory] objects, by reference *)
  sessions : list Session;
  memories : list models.Row;     (* table [memories], committed rows *)
  log : list Event
}.

Definition set_self_memory (s : Store) (w : World) : World :=
  {| self_memory := s; heap := heap w; sessions := sessions w;
     memories := memories w; log := log w |}.
Definition set_heap (h : list models.Memory) (w : World) : World :=
  {| self_memory := self_memory w; heap := h; sessions := sessions w;
     memories := memories w; log := log w |}.
Definition set_sessions (ss : list Session) (w : World) : World :=
  {| self_memory := self_memory w; heap := heap w; sessions := ss;
     memories := memories w; log := log w |}.
Definition set_memories (t : list models.Row) (w : World) : World :=
  {| self_memory := self_memory w; heap := heap w; sessions := sessions w;
     memories := t; log := log w |}.
Definition set_log (l : list Event) (w : World) : World :=
  {| self_memory := self_memory w; heap := heap w; sessions := sessions w;
     memories := memories w; log := l |}.

(** *** Computations: state and exceptions

    A raised exception keeps the changes made to the world before it. *)
Definition M (A : Type) : Type := World -> (Exn + A) * World.

Definition ret {A} (a : A) : M A := fun w => (inr a, w).
Definition raise {A} (e : Exn) : M A := fun w => (inl e, w).
Definition bind {A B} (m : M A) (k : A -> M B) : M B :=
  fun w =>
    match m w with
    | (inr a, w') => k a w'
    | (inl e, w') => (inl e, w')
    end.

Notation "x <- m ;; k" := (bind m (fun x => k))
  (at level 100, m at next level, right associativity).
Notation "m ;; k" := (bind m (fun _ => k))
  (at level 100, right associativity).

(** [try: body except Exception as e: handler e] *)
Definition try_except {A} (body : M A) (handler : Exn -> M A) : M A :=
  fun w =>
    match body w with
    | (inl e, w') => handler e w'
    | (inr a, w') => (inr a, w')
    end.

(** [try: body finally: cleanup]: the cleanup runs on both paths; an
    exception of the cleanup replaces the outcome of the body. *)
Definition try_finally {A} (body : M A) (cleanup : M unit) : M A :=
  fun w =>
    match body w with
    | (r, w') =>
        match cleanup w' with
        | (inr _, w'') => (r, w'')
        | (inl e, w'') => (inl e, w'')
        end
    end.

Definition modify (f : World -> World) : M unit := fun w => (inr tt, f w).
Definition emit (e : Event) : M unit :=
  modify (fun w => set_log (log w ++ [e]) w).
Definition guard (fault : option Exn) : M unit :=
  match fault with
  | Some e => raise e
  | None => ret tt
  end.

(** *** What the libraries contribute *)

(** [ConversationChain.predict(input=..., history=...)] with the shared
    memory attached: from the store it finds, the text generated or the
    exception raised, and the store it leaves. *)
Variable chain_predict :
  ConversationChain -> string -> list BaseMessage -> Store ->
  (Exn + string) * Store.

(** [ConversationKGMemory.load_memory_variables({"input": query})]. *)
Variable load_memory_variables : Store -> string -> MemoryVariables.

(** Which statements of the [try] body of [save_memory] raise, and what.
    [rollback] and [close] do not raise. *)
Record Faults := {
  add_raises : option Exn;
  commit_raises : option Exn;
  refresh_raises : option Exn
}.
Variable faults : Faults.

(** Raised by [refresh] for an object that has no row. *)
Variable InvalidRequestError : Exn.

(** [chain.predict(input=input, history=history)]: the call is logged
    and the shared store becomes the one that the chain leaves. *)
Definition predict (chain : ConversationChain) (input : string)
                   (history : list BaseMessage) : M string :=
  emit (ev_predict chain input history) ;;
  fun w =>
    let '(r, s) := chain_predict chain input history (self_memory w) in
    (r, set_self_memory s w).

(** *** The session *)

(** Modelled from the spec: the session factory [SessionLocal] of
    [app/utils/database.py], which is not among the sources.  A session
    behaves as the Persistence Sink demands (an insert is transactional
    and fails atomically): [add] registers an object, [commit] writes the
    registered objects as rows, all of them or, raising, none, [refresh]
    reloads an object from its row, [rollback] drops what was not
    committed and [close] ends the session.  [SessionLocal()] opens a new
    session and returns its index. *)
Definition SessionLocal : M nat :=
  fun w =>
    (inr (length (sessions w)),
     set_sessions (sessions w ++ [{| pending := []; closed := false |}]) w).

Definition set_pending (p : list nat) (s : Session) : Session :=
  {| pending := p; closed := closed s |}.

(** [Memory(question=..., response=..., long_term=...)]: a new object
    on the heap. *)
Definition Memory (question response : option string)
                  (long_term : option bool) : M nat :=
  fun w =>
    (inr (length (heap w)),
     set_heap (heap w ++ [models.new question response long_term]) w).

(** [db.add(obj)] *)
Definition db_add (db obj : nat) : M unit :=
  emit (ev_db db op_add) ;;
  guard (add_raises faults) ;;
  modify (fun w =>
    set_sessions
      (alter (fun s => set_pending (pending s ++ [obj]) s) db (sessions w)) w).

(** The INSERT of one object: the row is written and the object learns
    its primary key. *)
Definition flush_one (w : World) (obj : nat) : World :=
  match heap w !! obj with
  | Some m =>
      let i := match models.id m with
               | Some i => i
               | None => models.fresh_id (memories w)
               end in
      set_memories (memories w ++ [models.to_row i m])
        (set_heap (<[obj := {| models.id := Some i;
                               models.question := models.question m;
                               models.response := models.response m;
                               models.long_term := models.long_term m |}]>
                     (heap w)) w)
  | None => w
  end.

(** [db.commit()]: raises before anything is written, or writes every
    pending object. *)
Definition db_commit (db : nat) : M unit :=
  emit (ev_db db op_commit) ;;
  guard (commit_raises faults) ;;
  modify (fun w =>
    match sessions w !! db with
    | Some s =>
        let w' := foldl flush_one w (pending s) in
        set_sessions (alter (set_pending []) db (sessions w')) w'
    | None => w
    end).

(** [db.refresh(obj)] *)
Definition db_refresh (db obj : nat) : M unit :=
  emit (ev_db db op_refresh) ;;
  guard (refresh_raises faults) ;;
  fun w =>
    match heap w !! obj with
    | Some m =>
        match models.id m with
        | Some i =>
            match List.find (fun r => (models.row_id r =? i)%Z)
                            (memories w) with
            | Some r =>
                (inr tt, set_heap (<[obj := models.of_row r]> (heap w)) w)
            | None => (inl InvalidRequestError, w)
            end
        | None => (inl InvalidRequestError, w)
        end
    | None => (inl InvalidRequestError, w)
    end.

(** [db.rollback()] *)
Definition db_rollback (db : nat) : M unit :=
  emit (ev_db db op_rollback) ;;
  modify (fun w => set_sessions (alter (set_pending []) db (sessions w)) w).

(** [db.close()] *)
Definition db_close (db : nat) : M unit :=
  emit (ev_db db op_close) ;;
  modify (fun w =>
    set_sessions
      (alter (fun _ => {| pending := []; closed := true |}) db (sessions w)) w).

(** *** [LangChainService]

    Each method is embedded statement by statement; [save_memory] first
    records in the log that it was called, and with what. *)

Definition save_memory (question response : string) (long_term : bool)
  : M nat :=
  emit (ev_save_memory question response long_term) ;;
  db <- SessionLocal ;;
  try_finally
    (try_except
       (memory <- Memory (Some question) (Some response) (Some long_term) ;;
        db_add db memory ;;
        db_commit db ;;
        db_refresh db memory ;;
        ret memory)
       (fun e => db_rollback db ;; raise e))
    (db_close db).

Definition confirm_memory (analysis question response : string) : M unit :=
  confirmation <- predict agent3 (confirmation_input analysis) [] ;;
  if contains "yes" (lower confirmation)
  then save_memory question response true ;; ret tt
  else ret tt.

Definition analyze_response (question response : string) : M string :=
  analysis <- predict agent2 (analysis_input question response) [] ;;
  ret analysis.

Definition ask_question (question : string) : M string :=
  response <- predict agent1 question [] ;;
  analysis <- analyze_response question response ;;
  (if truthy analysis
   then confirm_memory analysis question response
   else ret tt) ;;
  ret response.

Definition load_memory (query : string) : M MemoryVariables :=
  fun w => (inr (load_memory_variables (self_memory w) query), w).

(** When the save-gate opens on [question] in [w], and the response
    then saved: the first agent answers, the second returns a
    non-empty analysis, and the third returns a text that has [yes]. *)
Definition gate_open (question : string) (w : World) (response : string)
  : Prop :=
  exists s1 analysis s2 confirmation s3,
    chain_predict agent1 question [] (self_memory w) = (inr response, s1) /\
    chain_predict agent2 (analysis_input question response) [] s1
      = (inr analysis, s2) /\
    analysis <> EmptyString /\
    chain_predict agent3 (confirmation_input analysis) [] s2
      = (inr confirmation, s3) /\
    has_yes confirmation.

End Service.

(** ** A chain that has a memory

    [ConversationChain.predict] as langchain runs it for a chain built
    with [memory=self.memory]: the chain loads the variables of its
    memory for the input and puts them over the keywords of the call that
    have the same name, so the [history] of the prompt is what the store
    renders and the [history] keyword is dropped; the prompt is formatted
    and sent to the model; the exchange is then saved into the memory,
    which appends it to the chat messages and after that extracts the
    knowledge triples.  The memory asks the model twice, for the entities
    of the input when it loads and for the triples when it saves, and
    each of the three calls of the model may raise. *)

Section Chain.

Context {Store BaseMessage Exn : Type}.

(** [memory.load_memory_variables(inputs)["history"]]: the text of what
    the store knows on the entities of the input, or the exception of the
    entity extraction. *)
Variable load_variables : Store -> string -> Exn + string.

(** [prompt.format(history=..., input=...)] *)
Variable render : PromptTemplate -> string -> string -> string.

(** The model on a prompt. *)
Variable generate : string -> Exn + string.

(** The two steps of [memory.save_context]: the exchange is appended to
    the chat messages; the triples of the input are extracted and added
    to the graph, or the extraction raises. *)
Variable add_exchange : Store -> string -> string -> Store.
Variable update_kg : Store -> string -> Exn + Store.

(** The prompt that the model is given for [input] when the memory holds
    [store]. *)
Definition stage_prompt (chain : ConversationChain) (input : string)
                        (store : Store) : Exn + string :=
  match load_variables store input with
  | inl e => inl e
  | inr context => inr (render (prompt chain) context input)
  end.

Definition conversation_predict
    (chain : ConversationChain) (input : string)
    (history : list BaseMessage) (store : Store)
  : (Exn + string) * Store :=
  match stage_prompt chain input store with
  | inl e => (inl e, store)
  | inr text_of_prompt =>
      match generate text_of_prompt with
      | inl e => (inl e, store)
      | inr text =>
          let store1 := add_exchange store input text in
          match update_kg store1 input with
          | inl e => (inl e, store1)
          | inr store2 => (inr text, store2)
          end
      end
  end.

End Chain.

(** ** Reading the log and the table *)

Section Observations.

Context {Store BaseMessage : Type}.
Abbreviation World := (@World Store BaseMessage).

(** The rows written and the calls made between two worlds. *)
Definition new_records (w w' : World) : list models.Row :=
  drop (length (memories w)) (memories w').

Definition new_events (w w' : World) : list (@Event BaseMessage) :=
  drop (length (log w)) (log w').

Definition predict_calls (evs : list (@Event BaseMessage))
  : list (ConversationChain * string * list BaseMessage) :=
  omap (fun ev => match ev with
                  | ev_predict c i h => Some (c, i, h)
                  | _ => None
                  end) evs.

Definition save_calls (evs : list (@Event BaseMessage))
  : list (string * string * bool) :=
  omap (fun ev => match ev with
                  | ev_save_memory q r lt => Some (q, r, lt)
                  | _ => None
                  end) evs.

Definition db_ops (evs : list (@Event BaseMessage)) : list (nat * DbOp) :=
  omap (fun ev => match ev with
                  | ev_db db op => Some (db, op)
                  | _ => None
                  end) evs.

(** The world after a stage call: the store it left, one more event. *)
Definition staged (w : World) (s : Store) (ev : @Event BaseMessage) : World :=
  {| self_memory := s; heap := heap w; sessions := sessions w;
     memories := memories w; log := log w ++ [ev] |}.

End Observations.

(** The statement of [try] that raises first, if any. *)
Definition first_fault {Exn} (f : @Faults Exn) : option Exn :=
  match add_raises f with
  | Some e => Some e
  | None =>
      match commit_raises f with
      | Some e => Some e
      | None => refresh_raises f
      end
  end.

(** ** The outcome of an insert *)

Section Outcome.

Context {Store BaseMessage : Type}.
Abbreviation World := (@World Store BaseMessage).

(** The row that [save_memory question response long_term] writes into
    [table]. *)
Definition saved_row (table : list models.Row) (question response : string)
                     (long_term : bool) : models.Row :=
  {| models.row_id := models.fresh_id table;
     models.row_question := Some question;
     models.row_response := Some response;
     models.row_long_term := Some long_term |}.

(** The world after [save_memory]: the object it built, its session
    closed, the table and the calls it logged. *)
Definition after_save (w : World) (obj : models.Memory)
                      (table : list models.Row) (ops : list DbOp) 
                      (question response : string) (long_term : bool)
  : World :=
  {| self_memory := self_memory w;
     heap := heap w ++ [obj];
     sessions := sessions w ++ [{| pending := []; closed := true |}];
     memories := table;
     log := log w ++ ev_save_memory question response long_term
                     :: map (ev_db (length (sessions w))) ops |}.

End Outcome.

(** ** Scripted runs

    Agents that answer from a script, over a store that keeps the
    exchanges it was given; exceptions are named by their class. *)

Definition Script : Type :=
  (string + string) * (string + string) * (string + string).

Definition scripted (script : Script)
  (chain : ConversationChain) (input : string) (history : list string)
  (store : list (string * string))
  : (string + string) * list (string * string) :=
  let '(a1, a2, a3) := script in
  let out :=
    if String.eqb (template (prompt chain)) agent1_prompt_template then a1
    else if String.eqb (template (prompt chain)) agent2_prompt_template then a2
    else a3 in
  match out with
  | inr text => (inr text, store ++ [(input, text)])
  | inl e => (inl e, store)
  end.

Definition start : @World (list (string * string)) string :=
  {| self_memory := []; heap := []; sessions := []; memories := []; log := [] |}.

Definition no_faults : @Faults string :=
  {| add_raises := None; commit_raises := None; refresh_raises := None |}.
Definition commit_fails : @Faults string :=
  {| add_raises := None; commit_raises := Some "StorageError";
     refresh_raises := None |}.
Definition refresh_fails : @Faults string :=
  {| add_raises := None; commit_raises := None;
     refresh_raises := Some "StorageError" |}.

Definition scripted_ask (script : Script) (f : @Faults string)
  : string -> M string :=
  ask_question (scripted script) f "InvalidRequestError".

Definition scripted_save (f : @Faults string)
  : string -> string -> bool -> M nat :=
  save_memory (Store := list (string * string)) (BaseMessage := string)
    f "InvalidRequestError".

Definition france : string := "What is the capital of France?".
Definition paris : string := "The capital of France is Paris.".
Definition worth : string :=
  "This is a factual statement worth remembering.".

Definition saves : Script :=
  (inr paris, inr worth, inr "Yes, this should be saved.").
Definition declines : Script :=
  (inr paris, inr worth, inr "No, this is too generic.").
Definition yesterday : Script :=
  (inr paris, inr worth, inr "I said so YESTERDAY.").
Definition silent : Script := (inr paris, inr EmptyString, inr "yes").
Definition blank : Script := (inr paris, inr " ", inr "yes").
Definition analyzer_down : Script :=
  (inr paris, inl "UpstreamGenerationError", inr "yes").

(** *** A chain over a store of facts

    The store is a list of lines; loading renders them all, the template
    is filled in one pass, and the model echoes its prompt or fails. *)

Fixpoint fill_from (skip : nat) (t history input : string) : string :=
  match t with
  | EmptyString => EmptyString
  | String c rest =>
      match skip with
      | S k => fill_from k rest history input
      | O =>
          if String.prefix "{history}" t
          then history +:+ fill_from 8 rest history input
          else if String.prefix "{input}" t
          then input +:+ fill_from 6 rest history input
          else String c (fill_from 0 rest history input)
      end
  end.

Definition fill (t : PromptTemplate) (history input : string) : string :=
  fill_from 0 (template t) history input.

Definition recall (store : list string) (input : string) : string + string :=
  inr (unlines store).

Definition echo (text_of_prompt : string) : string + string :=
  inr text_of_prompt.

Definition model_down (text_of_prompt : string) : string + string :=
  inl "APIError".

Definition says_paris (text_of_prompt : string) : string + string :=
  inr paris.

Definition note (store : list string) (input output : string) : list string :=
  store ++ ["Human: " +:+ input; "AI: " +:+ output].

Definition triples_kept (store : list string) (input : string)
  : string + list string :=
  inr store.

Definition triples_fail (store : list string) (input : string)
  : string + list string :=
  inl "APIError".

Definition knowing (facts : list string) : @World (list string) string :=
  {| self_memory := facts; heap := []; sessions := []; memories := [];
     log := [] |}.

Definition fact : string := "On France: its capital is Paris.".

(** The pipeline over this chain: the model and the extraction of the
    triples are the two that vary. *)
Definition recalling_ask (model : string -> string + string)
    (extraction : list string -> string -> string + list string)
  : string -> M (BaseMessage := string) string :=
  ask_question (conversation_predict recall fill model note extraction)
    no_faults "InvalidRequestError".

(** ** The schemas of [app/schemas/memory.py] *)

Module schemas.

(** The body of a request to the endpoint, once validated: both fields
    are required strings. *)
Record MemoryBase := {
  question : string;
  response : string
}.

End schemas.

(** ** The endpoint of [app/api/endpoints/langchain.py] *)

Module endpoints.

Section Endpoint.

Context {Store BaseMessage Exn : Type}.
Variable chain_predict :
  ConversationChain -> string -> list BaseMessage -> Store ->
  (Exn + string) * Store.
Variable faults : @Faults Exn.
Variable InvalidRequestError : Exn.

(** The store that [ConversationKGMemory(llm=llm, memory_key="history",
    input_key="input")] builds. *)
Variable new_memory : Store.

(** [LangChainService()]: [__init__] binds [self.memory] to a new store;
    the three agents are built over it. *)
Definition LangChainService : M (BaseMessage := BaseMessage) (Exn := Exn) unit :=
  modify (set_self_memory new_memory).

(** [ask_question(question: MemoryBase, service: LangChainService =
    Depends())]: the service is built for the request, asked the
    [question] field of the body, and the answer is returned in a dict. *)
Definition ask_question (question : schemas.MemoryBase)
  : M (list (string * string)) :=
  bind LangChainService (fun _ =>
  bind (ask_question chain_predict faults InvalidRequestError
          (schemas.question question)) (fun response =>
  ret [("response", response)])).

End Endpoint.

End endpoints.

(** The endpoint over scripted agents; a new store is empty. *)
Definition scripted_post (script : Script) (f : @Faults string)
  : schemas.MemoryBase -> M (list (string * string)) :=
  endpoints.ask_question (scripted script) f "InvalidRequestError" [].

(** ** Substrings and casing *)

Lemma prefix_app (n h : string) :
  String.prefix n h = true <-> exists post, h = n +:+ post.
Proof.
  revert h; induction n as [|c n IH]; intros h; simpl.
  - split; [intros _; exists h; reflexivity | intros _; now destruct h].
  - destruct h as [|d h]; simpl.
    + split; [discriminate | intros [post H]; discriminate].
    + destruct (Ascii.ascii_dec c d) as [->|Hne].
      * rewrite IH. split; intros [post H]; exists post.
        -- now rewrite H.
        -- now injection H.
      * split; [discriminate | intros [post H]; injection H; congruence].
Qed.

Lemma contains_app (n h : string) :
  contains n h = true <-> exists pre post, h = pre +:+ n +:+ post.
Proof.
  induction h as [|d h IH]; cbn [contains]; rewrite orb_true_iff, prefix_app.
  - split.
    + intros [[post H]|H]; [|discriminate].
      exists EmptyString, post; exact H.
    + intros [pre [post H]]. left. destruct pre; simpl in H.
      * now exists post.
      * discriminate.
  - rewrite IH. split.
    + intros [[post H]|[pre [post H]]].
      * exists EmptyString, post; exact H.
      * exists (String d pre), post; simpl; now rewrite H.
    + intros [pre [post H]]. destruct pre as [|c pre]; simpl in H.
      * left; now exists post.
      * right; injection H as _ H; now exists pre, post.
Qed.

Lemma lower_app (a b : string) : lower (a +:+ b) = lower a +:+ lower b.
Proof. induction a as [|c a IH]; simpl; [reflexivity | now rewrite IH]. Qed.

Lemma lower_split (s a b : string) :
  lower s = a +:+ b ->
  exists a' b', s = a' +:+ b' /\ lower a' = a /\ lower b' = b.
Proof.
  revert s; induction a as [|c a IH]; intros s H; simpl in H.
  - exists EmptyString, s; auto.
  - destruct s as [|d s]; simpl in H; [discriminate|].
    injection H as Hc H. destruct (IH s H) as (a' & b' & -> & Ha & Hb).
    exists (String d a'), b'; simpl; rewrite Hc, Ha; auto.
Qed.

(** The test of [confirm_memory] holds exactly of the texts that have
    [yes] as a substring in some casing. *)
Lemma contains_yes_iff (s : string) :
  contains "yes" (lower s) = true <-> has_yes s.
Proof.
  rewrite contains_app; split.
  - intros (pre & post & H).
    apply lower_split in H as (pre' & rest & -> & <- & H).
    apply lower_split in H as (mid & post' & -> & Hm & <-).
    now exists pre', mid, post'.
  - intros (pre & mid & post & -> & Hm).
    exists (lower pre), (lower post). now rewrite !lower_app, Hm.
Qed.

Lemma truthy_iff (s : string) : truthy s = true <-> s <> EmptyString.
Proof. destruct s; simpl; split; congruence. Qed.

(** ** Lists that grow at the end *)

Lemma lookup_snoc {A} (l : list A) (x : A) : (l ++ [x]) !! length l = Some x.
Proof. now apply list_lookup_middle. Qed.

Lemma alter_snoc {A} (f : A -> A) (l : list A) (x : A) :
  alter f (length l) (l ++ [x]) = l ++ [f x].
Proof.
  rewrite <- (Nat.add_0_r (length l)) at 1. now rewrite alter_app_r.
Qed.

Lemma insert_snoc {A} (l : list A) (x y : A) :
  <[length l := y]> (l ++ [x]) = l ++ [y].
Proof.
  rewrite <- (Nat.add_0_r (length l)) at 1. now rewrite insert_app_r.
Qed.

Ltac snoc_steps :=
  repeat (first [rewrite alter_snoc | rewrite lookup_snoc | rewrite insert_snoc];
          simpl).

(** ** The primary key of a new row is not in the table *)

Lemma fresh_id_above (table : list models.Row) (r : models.Row) :
  In r table -> models.row_id r < models.fresh_id table.
Proof.
  unfold models.fresh_id. induction table as [|r' t IH]; simpl.
  - intros [].
  - intros [->|H]; [lia | specialize (IH H); lia].
Qed.

Lemma find_fresh_id (table : list models.Row) :
  List.find (fun r => (models.row_id r =? models.fresh_id table)%Z) table = None.
Proof.
  destruct (List.find _ table) as [r|] eqn:H; [|reflexivity].
  apply List.find_some in H as [Hin Heq].
  apply fresh_id_above in Hin. lia.
Qed.

Lemma find_new_row (table : list models.Row) (r : models.Row) :
  models.row_id r = models.fresh_id table ->
  List.find (fun x => (models.row_id x =? models.fresh_id table)%Z)
            (table ++ [r])
  = Some r.
Proof.
  intros H.
  assert (G : forall (t : list models.Row) (i : Z),
             List.find (fun x => (models.row_id x =? i)%Z) t = None ->
             models.row_id r = i ->
             List.find (fun x => (models.row_id x =? i)%Z) (t ++ [r]) = Some r).
  { induction t as [|x t IH]; simpl; intros i Hn Hi.
    - rewrite Hi, Z.eqb_refl. reflexivity.
    - destruct (models.row_id x =? i)%Z; [discriminate | now apply IH]. }
  apply G; [apply find_fresh_id | exact H].
Qed.

(** ** What one call of [save_memory] does *)

Section SaveMemory.

Context {Store BaseMessage Exn : Type}.
Variable faults : @Faults Exn.
Variable InvalidRequestError : Exn.

Abbreviation World := (@World Store BaseMessage).
Abbreviation save :=
  (@save_memory Store BaseMessage Exn faults InvalidRequestError).

Lemma save_memory_run (question response : string) (long_term : bool)
                      (w : World) :
  save question response long_term w =
  let fresh := models.new (Some question) (Some response) (Some long_term) in
  let row := saved_row (memories w) question response long_term in
  let flushed :=
    {| models.id := Some (models.row_id row);
       models.question := Some question;
       models.response := Some response;
       models.long_term := Some long_term |} in
  match add_raises faults with
  | Some e =>
      (inl e, after_save w fresh (memories w)
                [op_add; op_rollback; op_close] question response long_term)
  | None =>
      match commit_raises faults with
      | Some e =>
          (inl e, after_save w fresh (memories w)
                    [op_add; op_commit; op_rollback; op_close]
                    question response long_term)
      | None =>
          match refresh_raises faults with
          | Some e =>
              (inl e, after_save w flushed (memories w ++ [row])
                        [op_add; op_commit; op_refresh; op_rollback; op_close]
                        question response long_term)
          | None =>
              (inr (length (heap w)),
               after_save w (models.of_row row) (memories w ++ [row])
                 [op_add; op_commit; op_refresh; op_close]
                 question response long_term)
          end
      end
  end.
Proof.
  unfold save_memory, db_add, db_commit, db_refresh, db_rollback, db_close,
    SessionLocal, Memory, try_finally, try_except, emit, guard, modify, bind,
    raise, ret, after_save.
  destruct (add_raises faults) as [e|]; simpl.
  - snoc_steps. rewrite <- !app_assoc. reflexivity.
  - destruct (commit_raises faults) as [e|]; simpl.
    + snoc_steps. rewrite <- !app_assoc. reflexivity.
    + snoc_steps. unfold flush_one. simpl. snoc_steps.
      destruct (refresh_raises faults) as [e|]; simpl.
      * snoc_steps. rewrite <- !app_assoc. reflexivity.
      * snoc_steps. rewrite find_new_row by reflexivity.
        snoc_steps. rewrite <- !app_assoc. reflexivity.
Qed.

End SaveMemory.

(** ** The stages, run *)

Section Pipeline.

Context {Store BaseMessage Exn MemoryVariables : Type}.
Variable chain_predict :
  ConversationChain -> string -> list BaseMessage -> Store ->
  (Exn + string) * Store.
Variable load_memory_variables : Store -> string -> MemoryVariables.
Variable faults : @Faults Exn.
Variable InvalidRequestError : Exn.

Abbreviation World := (@World Store BaseMessage).
Abbreviation run_predict := (@predict Store BaseMessage Exn chain_predict).
Abbreviation save :=
  (@save_memory Store BaseMessage Exn faults InvalidRequestError).
Abbreviation confirm :=
  (@confirm_memory Store BaseMessage Exn chain_predict faults
     InvalidRequestError).
Abbreviation ask :=
  (@ask_question Store BaseMessage Exn chain_predict faults
     InvalidRequestError).
Abbreviation load :=
  (@load_memory Store BaseMessage Exn MemoryVariables load_memory_variables).

Lemma predict_run (chain : ConversationChain) (input : string)
                  (history : list BaseMessage) (w : World) :
  run_predict chain input history w =
  (fst (chain_predict chain input history (self_memory w)),
   staged w (snd (chain_predict chain input history (self_memory w)))
     (ev_predict chain input history)).
Proof.
  unfold predict, emit, modify, bind; simpl.
  destruct (chain_predict chain input history (self_memory w)); reflexivity.
Qed.

Lemma confirm_memory_run (analysis question response : string) (w : World) :
  confirm analysis question response w =
  let out := chain_predict agent3 (confirmation_input analysis) []
               (self_memory w) in
  let w1 := staged w (snd out)
              (ev_predict agent3 (confirmation_input analysis) []) in
  match fst out with
  | inl e => (inl e, w1)
  | inr confirmation =>
      if contains "yes" (lower confirmation)
      then match save question response true w1 with
           | (inl e, w2) => (inl e, w2)
           | (inr _, w2) => (inr tt, w2)
           end
      else (inr tt, w1)
  end.
Proof.
  unfold confirm_memory, bind. rewrite predict_run. simpl.
  destruct (fst _) as [e|c]; [reflexivity|].
  destruct (contains _ _); [|reflexivity].
  unfold ret. destruct (save _ _ _ _) as [[e|obj] w2]; reflexivity.
Qed.

Lemma ask_question_run (question : string) (w : World) :
  ask question w =
  let out1 := chain_predict agent1 question [] (self_memory w) in
  let w1 := staged w (snd out1) (ev_predict agent1 question []) in
  match fst out1 with
  | inl e => (inl e, w1)
  | inr response =>
      let out2 := chain_predict agent2 (analysis_input question response) []
                    (snd out1) in
      let w2 := staged w1 (snd out2)
                  (ev_predict agent2 (analysis_input question response) []) in
      match fst out2 with
      | inl e => (inl e, w2)
      | inr analysis =>
          if truthy analysis
          then match confirm analysis question response w2 with
               | (inl e, w3) => (inl e, w3)
               | (inr _, w3) => (inr response, w3)
               end
          else (inr response, w2)
      end
  end.
Proof.
  unfold ask_question, analyze_response, bind. rewrite predict_run. simpl.
  destruct (fst _) as [e|response]; [reflexivity|].
  rewrite predict_run. simpl.
  destruct (fst _) as [e|analysis]; [reflexivity|].
  unfold ret. destruct (truthy analysis); [|reflexivity].
  destruct (confirm _ _ _ _) as [[e|u] w3]; reflexivity.
Qed.

Lemma new_records_same (w w' : World) :
  memories w' = memories w -> new_records w w' = [].
Proof. unfold new_records; intros ->; apply drop_all. Qed.

Lemma new_records_snoc (w w' : World) (rows : list models.Row) :
  memories w' = memories w ++ rows -> new_records w w' = rows.
Proof. unfold new_records; intros ->; apply drop_app_length. Qed.

Lemma new_events_snoc (w w' : World) (evs : list (@Event BaseMessage)) :
  log w' = log w ++ evs -> new_events w w' = evs.
Proof. unfold new_events; intros ->; apply drop_app_length. Qed.

Lemma no_yes (c : string) : contains "yes" (lower c) = false -> ~ has_yes c.
Proof. intros H G. apply contains_yes_iff in G. congruence. Qed.

Lemma not_truthy (s : string) : truthy s = false -> s = EmptyString.
Proof. now destruct s. Qed.

Ltac pipeline_cases H1 H2 H3 :=
  rewrite ask_question_run; simpl;
  destruct (chain_predict agent1 _ _ _) as [[?e|?response] ?s1] eqn:H1; simpl;
  [| destruct (chain_predict agent2 _ _ _) as [[?e|?analysis] ?s2] eqn:H2;
     simpl;
     [| destruct (truthy _) eqn:?Ht;
        [ rewrite confirm_memory_run; simpl;
          destruct (chain_predict agent3 _ _ _)
            as [[?e|?confirmation] ?s3] eqn:H3; simpl;
          [| destruct (contains _ _) eqn:?Hy;
             [ rewrite save_memory_run; simpl |] ]
        |] ] ].

Ltac sync :=
  repeat match goal with
    | H : ?t = _, G : ?t = _ |- _ =>
        match t with
        | chain_predict _ _ _ _ => rewrite H in G; simplify_eq
        end
    end.

Ltac open_gate G :=
  destruct G as (?t1 & ?a & ?t2 & ?c & ?t3 & ?G1 & ?G2 & ?Ga & ?G3 & ?Gy);
  sync.

Ltac gate_absurd G :=
  exfalso; open_gate G;
  try match goal with
    | Ht : truthy _ = false |- _ => apply not_truthy in Ht; contradiction
    end;
  try match goal with
    | Hy : contains _ _ = false |- _ => apply no_yes in Hy; contradiction
    end.

(** ** The save-gate *)

(** Claim C1, as the code has it: an invocation of [ask_question] persists
    a Memory Record if and only if the second agent returned a non-empty
    analysis, the third agent returned a text that has [yes] in some
    casing, and neither [add] nor [commit] raised; the record persisted
    then carries the question, the first agent's response and
    [long_term = true]. *)
Theorem record_persisted_iff (question : string) (w : World) :
  (new_records w (snd (ask question w)) <> [] <->
   exists response,
     gate_open chain_predict question w response /\
     add_raises faults = None /\ commit_raises faults = None) /\
  (forall response,
     gate_open chain_predict question w response ->
     add_raises faults = None -> commit_raises faults = None ->
     new_records w (snd (ask question w))
     = [saved_row (memories w) question response true]).
Proof.
  pipeline_cases H1 H2 H3.
  4: {
    assert (G : gate_open chain_predict question w response).
    { exists s1, analysis, s2, confirmation, s3.
      repeat split; try assumption.
      - now apply truthy_iff.
      - now apply contains_yes_iff. }
    destruct (add_raises faults) as [e|] eqn:Fa; simpl;
      [| destruct (commit_raises faults) as [e|] eqn:Fc; simpl;
         [| destruct (refresh_raises faults) as [e|] eqn:Fr; simpl ] ].
    1, 2: split; [ split; [ intros Hn; exfalso; apply Hn;
                            now apply new_records_same
                          | intros (r & _ & ? & ?); congruence ]
                 | intros; congruence ].
    all: split; [ split; [ intros _; now exists response
                         | intros _; erewrite new_records_snoc by reflexivity;
                           discriminate ]
                | intros r G' _ _; open_gate G'; open_gate G;
                  now apply new_records_snoc ]. }
  all: split; [ split; [ intros Hn; exfalso; apply Hn;
                         now apply new_records_same
                       | intros (r & G & _); gate_absurd G ]
              | intros r G _ _; gate_absurd G ].
Qed.

Ltac fault_cases :=
  destruct (add_raises faults) as [?e|] eqn:?Fa; simpl;
  [| destruct (commit_raises faults) as [?e|] eqn:?Fc; simpl;
     [| destruct (refresh_raises faults) as [?e|] eqn:?Fr; simpl ] ].

Ltac events :=
  unfold new_events; simpl; rewrite <- ?app_assoc; rewrite drop_app_length;
  simpl.

(** Claim C2, for the empty analysis: if the second agent returns the
    empty string, [ask_question] stops after the analysis and returns the
    response; the third agent is not called, [save_memory] is not called,
    no session is opened and the table is as it was. *)
Theorem empty_analysis_stops (question : string) (w : World)
                           (response : string) (s1 s2 : Store) :
  chain_predict agent1 question [] (self_memory w) = (inr response, s1) ->
  chain_predict agent2 (analysis_input question response) [] s1
    = (inr EmptyString, s2) ->
  let w' := snd (ask question w) in
  fst (ask question w) = inr response /\
  new_events w w'
    = [ev_predict agent1 question [];
       ev_predict agent2 (analysis_input question response) []] /\
  memories w' = memories w /\
  sessions w' = sessions w /\
  heap w' = heap w.
Proof.
  intros H1 H2. rewrite ask_question_run. simpl.
  rewrite H1; simpl. rewrite H2; simpl.
  repeat split. now events.
Qed.

(** Claim C3: in an invocation that reaches the third agent, if its
    output has [yes] as a substring in some casing then [save_memory] is
    called exactly once, with the question, the response and
    [long_term = true]; if it has not, [save_memory] is not called. *)
Theorem confirmer_decides (question : string) (w : World)
                        (response analysis confirmation : string)
                        (s1 s2 s3 : Store) :
  chain_predict agent1 question [] (self_memory w) = (inr response, s1) ->
  chain_predict agent2 (analysis_input question response) [] s1
    = (inr analysis, s2) ->
  analysis <> EmptyString ->
  chain_predict agent3 (confirmation_input analysis) [] s2
    = (inr confirmation, s3) ->
  let calls := save_calls (new_events w (snd (ask question w))) in
  (has_yes confirmation -> calls = [(question, response, true)]) /\
  (~ has_yes confirmation -> calls = []).
Proof.
  intros H1 H2 Ha H3. apply truthy_iff in Ha.
  rewrite ask_question_run. simpl.
  rewrite H1; simpl. rewrite H2; simpl. rewrite Ha.
  rewrite confirm_memory_run. simpl. rewrite H3; simpl.
  destruct (contains "yes" (lower confirmation)) eqn:Hy.
  - split; [intros _ | intros Hn; exfalso; now apply Hn, contains_yes_iff].
    rewrite save_memory_run; simpl. fault_cases; now events.
  - split; [intros G; now apply no_yes in Hy | intros _].
    simpl. now events.
Qed.

(** Claim C4, as the code has it: when the first agent succeeds,
    [ask_question] never returns anything but that agent's response, and
    it does return it whenever the analysis is empty, or the third agent
    answers without [yes], or answers with [yes] and no statement of the
    insert raises. *)
Theorem ask_returns_the_answer (question : string) (w : World)
                             (response : string) (s1 : Store) :
  chain_predict agent1 question [] (self_memory w) = (inr response, s1) ->
  (forall v, fst (ask question w) = inr v -> v = response) /\
  (forall analysis s2,
     chain_predict agent2 (analysis_input question response) [] s1
       = (inr analysis, s2) ->
     analysis = EmptyString \/
     (exists confirmation s3,
        chain_predict agent3 (confirmation_input analysis) [] s2
          = (inr confirmation, s3) /\
        (~ has_yes confirmation \/ first_fault faults = None)) ->
     fst (ask question w) = inr response).
Proof.
  intros H1. split.
  - pipeline_cases G1 G2 G3; try fault_cases; simpl; intros v Hv;
      simplify_eq; reflexivity.
  - intros analysis s2 H2 Hrest.
    rewrite ask_question_run. simpl. rewrite H1; simpl. rewrite H2; simpl.
    destruct Hrest as [->|(confirmation & s3 & H3 & Hc)]; [reflexivity|].
    destruct (truthy analysis); [|reflexivity].
    rewrite confirm_memory_run. simpl. rewrite H3; simpl.
    destruct (contains "yes" (lower confirmation)) eqn:Hy; [|reflexivity].
    destruct Hc as [Hn|Hf]; [exfalso; now apply Hn, contains_yes_iff|].
    rewrite save_memory_run; simpl. unfold first_fault in Hf.
    fault_cases; congruence.
Qed.

(** ** Failures of the insert *)

(** Claim C5, as the code has it: a call of [save_memory] that fails
    raises the exception of the statement that failed, after a rollback;
    if [add] or [commit] was that statement the table has no new row; if
    it was [refresh], the row that [commit] wrote stays.  When the
    save-gate is open the exception reaches the caller of
    [ask_question]. *)
Theorem failed_save (question : string) (w : World) :
  (forall response long_term e,
     fst (save question response long_term w) = inl e ->
     let w' := snd (save question response long_term w) in
     first_fault faults = Some e /\
     In (length (sessions w), op_rollback) (db_ops (new_events w w')) /\
     (add_raises faults <> None \/ commit_raises faults <> None ->
      new_records w w' = []) /\
     (add_raises faults = None -> commit_raises faults = None ->
      new_records w w' = [saved_row (memories w) question response long_term]))
  /\
  (forall response e,
     gate_open chain_predict question w response ->
     first_fault faults = Some e ->
     fst (ask question w) = inl e).
Proof.
  split.
  - intros response long_term e. rewrite save_memory_run. simpl.
    unfold first_fault.
    fault_cases; intros He; simplify_eq;
      (split; [reflexivity|]); (split; [events; auto 10|]); split.
    all: try (intros _; now apply new_records_same).
    all: try congruence.
    + intros [Ha|Hc]; congruence.
    + intros _ _. now apply new_records_snoc.
  - intros response e G Hf. open_gate G.
    rewrite ask_question_run; simpl. rewrite G1; simpl. rewrite G2; simpl.
    apply truthy_iff in Ga; rewrite Ga.
    rewrite confirm_memory_run; simpl. rewrite G3; simpl.
    apply contains_yes_iff in Gy; rewrite Gy.
    rewrite save_memory_run; simpl. unfold first_fault in Hf.
    fault_cases; congruence.
Qed.

(** ** The calls of the agents *)

Lemma stage_histories (question : string) (w : World) :
  Forall (fun call => call.2 = [])
         (predict_calls (new_events w (snd (ask question w)))).
Proof.
  pipeline_cases H1 H2 H3; try fault_cases; events; repeat constructor.
Qed.

Lemma first_stage_raises (question : string) (w : World) (e : Exn)
                         (s1 : Store) :
  chain_predict agent1 question [] (self_memory w) = (inl e, s1) ->
  ask question w = (inl e, staged w s1 (ev_predict agent1 question [])).
Proof.
  intros H1. rewrite ask_question_run; simpl. now rewrite H1.
Qed.

Lemma ask_returns_first_text (question : string) (w : World) (v : string) :
  fst (ask question w) = inr v ->
  exists s1, chain_predict agent1 question [] (self_memory w) = (inr v, s1).
Proof.
  pipeline_cases H1 H2 H3; try fault_cases; simpl; intros Hv;
    simplify_eq; eauto.
Qed.

(** ** The session of [save_memory] *)

(** Claim C8: every call of [save_memory] leaves the session it opened
    closed, and [close] is the last thing it does with it; when a
    statement of the [try] raises, [rollback] comes just before [close]
    and the exception raised is that statement's own. *)
Theorem session_is_closed (question response : string) (long_term : bool)
                        (w : World) :
  let out := save question response long_term w in
  let db := length (sessions w) in
  let ops := db_ops (new_events w (snd out)) in
  sessions (snd out) = sessions w ++ [{| pending := []; closed := true |}] /\
  last ops = Some (db, op_close) /\
  (forall e,
     fst out = inl e ->
     first_fault faults = Some e /\
     exists before,
       ops = before ++ [(db, op_rollback); (db, op_close)] /\
       ~ In (db, op_rollback) before /\ ~ In (db, op_close) before) /\
  (forall obj,
     fst out = inr obj ->
     first_fault faults = None /\
     ops = [(db, op_add); (db, op_commit); (db, op_refresh); (db, op_close)]).
Proof.
  rewrite save_memory_run. simpl. unfold first_fault.
  fault_cases; (split; [reflexivity|]); (split; [now events|]); split;
    intros ? He; simplify_eq; (split; [reflexivity|]); events.
  - exists [(length (sessions w), op_add)].
    repeat split; simpl; intros [?|[]]; congruence.
  - exists [(length (sessions w), op_add); (length (sessions w), op_commit)].
    repeat split; simpl; intros [?|[?|[]]]; congruence.
  - exists [(length (sessions w), op_add); (length (sessions w), op_commit);
            (length (sessions w), op_refresh)].
    repeat split; simpl; intros [?|[?|[?|[]]]]; congruence.
  - reflexivity.
Qed.

(** ** The default of [long_term] *)

(** Claim C9: column [long_term] has the default [False]; an object
    built without [long_term] has none, and the row inserted for it has
    [long_term = false]; [save_memory] passes its argument, so the object
    it builds always has a [long_term] of its own. *)
Theorem long_term_default (question response : option string) (w : World) :
  models.default models.long_term_column = Some false /\
  models.long_term (models.new question response None) = None /\
  (forall i,
     models.row_long_term
       (models.to_row i (models.new question response None)) = Some false) /\
  new_records w
    (flush_one
       (snd (Memory (Exn := Exn) question response None w))
       (length (heap w)))
  = [{| models.row_id := models.fresh_id (memories w);
        models.row_question := question;
        models.row_response := response;
        models.row_long_term := Some false |}] /\
  (forall q r long_term,
     exists m,
       heap (snd (save q r long_term w)) !! length (heap w) = Some m /\
       models.long_term m = Some long_term).
Proof.
  repeat split.
  - unfold flush_one. simpl. snoc_steps.
    destruct question, response; now apply new_records_snoc.
  - intros q r long_term. rewrite save_memory_run. simpl.
    fault_cases; unfold after_save; simpl; rewrite lookup_snoc;
      eexists; split; reflexivity.
Qed.

(** ** The record that [save_memory] returns *)

(** Claim C10: the object that a successful [save_memory] returns has an
    [id] that is not [None] and carries the three arguments;
    [confirm_memory] returns nothing of it: its result is [None], or an
    exception. *)
Theorem saved_record (question response : string) (long_term : bool)
                   (w : World) (obj : nat) :
  fst (save question response long_term w) = inr obj ->
  (exists m,
     heap (snd (save question response long_term w)) !! obj = Some m /\
     models.id m <> None /\
     models.question m = Some question /\
     models.response m = Some response /\
     models.long_term m = Some long_term) /\
  (forall analysis w0,
     fst (confirm analysis question response w0) = inr tt \/
     exists e, fst (confirm analysis question response w0) = inl e).
Proof.
  intros H. split.
  - revert H. rewrite save_memory_run. simpl.
    fault_cases; intros H; simplify_eq.
    unfold after_save; simpl. rewrite lookup_snoc.
    eexists; repeat split. discriminate.
  - intros analysis w0.
    destruct (confirm analysis question response w0) as [[e|[]] w1]; simpl;
      eauto.
Qed.

End Pipeline.

(** ** The pipeline over a chain that has a memory *)

Section ChainFacts.

Context {Store BaseMessage Exn MemoryVariables : Type}.
Variable load_variables : Store -> string -> Exn + string.
Variable render : PromptTemplate -> string -> string -> string.
Variable generate : string -> Exn + string.
Variable add_exchange : Store -> string -> string -> Store.
Variable update_kg : Store -> string -> Exn + Store.
Variable load_memory_variables : Store -> string -> MemoryVariables.
Variable faults : @Faults Exn.
Variable InvalidRequestError : Exn.

Abbreviation World := (@World Store BaseMessage).
Abbreviation chain :=
  (@conversation_predict Store BaseMessage Exn load_variables render
     generate add_exchange update_kg).
Abbreviation prompt_of := (@stage_prompt Store Exn load_variables render).
Abbreviation run_predict := (@predict Store BaseMessage Exn chain).
Abbreviation ask :=
  (@ask_question Store BaseMessage Exn chain faults InvalidRequestError).
Abbreviation load :=
  (@load_memory Store BaseMessage Exn MemoryVariables load_memory_variables).

(** What a call of the chain that returns has done. *)
Lemma chain_returns (agent : ConversationChain) (input : string)
                    (history : list BaseMessage) (store store' : Store)
                    (text : string) :
  chain agent input history store = (inr text, store') ->
  exists context,
    load_variables store input = inr context /\
    generate (render (prompt agent) context input) = inr text /\
    update_kg (add_exchange store input text) input = inr store'.
Proof.
  unfold conversation_predict, stage_prompt.
  destruct (load_variables store input) as [e|context]; [discriminate|].
  destruct (generate _) as [e|out] eqn:Hg; [discriminate|].
  destruct (update_kg _ _) as [e|s2] eqn:Hu; [discriminate|].
  intros [= <- <-]. now exists context.
Qed.

(** What a call of the chain that raises has done. *)
Lemma chain_raises (agent : ConversationChain) (input : string)
                   (history : list BaseMessage) (store store' : Store)
                   (e : Exn) :
  chain agent input history store = (inl e, store') ->
  (store' = store /\
   (prompt_of agent input store = inl e \/
    exists text_of_prompt,
      prompt_of agent input store = inr text_of_prompt /\
      generate text_of_prompt = inl e)) \/
  (exists text_of_prompt text,
     prompt_of agent input store = inr text_of_prompt /\
     generate text_of_prompt = inr text /\
     update_kg (add_exchange store input text) input = inl e /\
     store' = add_exchange store input text).
Proof.
  unfold conversation_predict.
  destruct (stage_prompt _ _ _ _ _) as [e0|p] eqn:Hp.
  - intros [= <- <-]. left. split; [reflexivity | now left].
  - destruct (generate p) as [e0|out] eqn:Hg.
    + intros [= <- <-]. left. split; [reflexivity|]. right. now exists p.
    + destruct (update_kg _ _) as [e0|s2] eqn:Hu; [|discriminate].
      intros [= <- <-]. right. now exists p, out.
Qed.

(** Claim C6, as the code has it: every call of an agent within
    [ask_question] is given the empty list as the [history] keyword, but
    the chain has the shared store as its memory and renders the prompt
    from what the store loads for the input: the answer that
    [ask_question] returns was generated from the first agent's template
    filled with the context of the store, and so was the text of every
    stage call; after a call that returns, the store holds the exchange
    and its triples. *)
Theorem history_keyword_is_replaced (question : string) (w : World) :
  Forall (fun call => call.2 = [])
         (predict_calls (new_events w (snd (ask question w)))) /\
  (forall v,
     fst (ask question w) = inr v ->
     exists context,
       load_variables (self_memory w) question = inr context /\
       generate (render (prompt agent1) context question) = inr v) /\
  (forall agent input history (w0 : World) text,
     fst (run_predict agent input history w0) = inr text ->
     exists context,
       load_variables (self_memory w0) input = inr context /\
       generate (render (prompt agent) context input) = inr text /\
       update_kg (add_exchange (self_memory w0) input text) input
       = inr (self_memory (snd (run_predict agent input history w0)))).
Proof.
  split; [apply stage_histories|]. split.
  - intros v Hv. apply ask_returns_first_text in Hv as [s1 H1].
    apply chain_returns in H1 as (context & Hl & Hg & _). now exists context.
  - intros agent input history w0 text. rewrite predict_run. simpl.
    destruct (chain agent input history (self_memory w0)) as [r s'] eqn:Hc.
    simpl. intros ->. now apply chain_returns in Hc.
Qed.


End ChainFacts.

(** ** The scripted runs, checked *)

Lemma saves_opens_gate :
  gate_open (scripted saves) france start paris.
Proof.
  eexists _, _, _, _, _.
  split; [reflexivity|]. split; [reflexivity|]. split; [discriminate|].
  split; [reflexivity|]. apply contains_yes_iff; reflexivity.
Qed.

(** The two end-to-end scenarios. *)
Example scenario_saved :
  let out := scripted_ask saves no_faults france start in
  fst out = inr paris /\
  memories (snd out)
  = [{| models.row_id := 1; models.row_question := Some france;
        models.row_response := Some paris;
        models.row_long_term := Some true |}].
Proof. split; reflexivity. Qed.

Example scenario_declined :
  let out := scripted_ask declines no_faults france start in
  fst out = inr paris /\ memories (snd out) = [].
Proof. split; reflexivity. Qed.

Lemma record_persisted_iff_witness :
  gate_open (scripted saves) france start paris /\
  new_records start (snd (scripted_ask saves refresh_fails france start))
  = [saved_row [] france paris true].
Proof.
  split; [apply saves_opens_gate|].
  apply (proj2 (record_persisted_iff (scripted saves) refresh_fails
                  "InvalidRequestError" france start) paris);
    [apply saves_opens_gate | reflexivity | reflexivity].
Defined.

(** Against claim C1 as stated: the analysis is non-empty and the
    confirmation has [yes], yet [commit] raises and no record is
    persisted. *)
Lemma gate_open_nothing_persisted :
  gate_open (scripted saves) france start paris /\
  new_records start (snd (scripted_ask saves commit_fails france start)) = [].
Proof. split; [apply saves_opens_gate | reflexivity]. Qed.

Lemma empty_analysis_stops_witness :
  scripted silent agent1 france [] (self_memory start)
    = (inr paris, [(france, paris)]) /\
  scripted silent agent2 (analysis_input france paris) [] [(france, paris)]
    = (inr EmptyString,
       [(france, paris); (analysis_input france paris, EmptyString)]) /\
  fst (scripted_ask silent no_faults france start) = inr paris /\
  new_events start (snd (scripted_ask silent no_faults france start))
    = [ev_predict agent1 france [];
       ev_predict agent2 (analysis_input france paris) []] /\
  memories (snd (scripted_ask silent no_faults france start)) = [] /\
  sessions (snd (scripted_ask silent no_faults france start)) = [] /\
  heap (snd (scripted_ask silent no_faults france start)) = [].
Proof.
  split; [reflexivity|]. split; [reflexivity|].
  apply (empty_analysis_stops (scripted silent) no_faults
           "InvalidRequestError" france start paris
           [(france, paris)]
           [(france, paris); (analysis_input france paris, EmptyString)]);
    reflexivity.
Defined.

(** Against claim C2 as stated: the analysis is a single space, which is
    blank and true as a condition; the third agent is called, and on its
    [yes] the record is saved. *)
Lemma blank_analysis_reaches_confirmer :
  scripted blank agent2 (analysis_input france paris) [] [(france, paris)]
    = (inr " ",
       [(france, paris); (analysis_input france paris, " ")]) /\
  let evs := new_events start (snd (scripted_ask blank no_faults france start))
  in
  predict_calls evs
    = [(agent1, france, []);
       (agent2, analysis_input france paris, []);
       (agent3, confirmation_input " ", [])] /\
  save_calls evs = [(france, paris, true)] /\
  db_ops evs = [(0%nat, op_add); (0%nat, op_commit); (0%nat, op_refresh);
                (0%nat, op_close)].
Proof. repeat split. Qed.

Lemma confirmer_decides_witness :
  scripted yesterday agent1 france [] (self_memory start)
    = (inr paris, [(france, paris)]) /\
  scripted yesterday agent2 (analysis_input france paris) [] [(france, paris)]
    = (inr worth, [(france, paris); (analysis_input france paris, worth)]) /\
  worth <> EmptyString /\
  scripted yesterday agent3 (confirmation_input worth) []
    [(france, paris); (analysis_input france paris, worth)]
    = (inr "I said so YESTERDAY.",
       [(france, paris); (analysis_input france paris, worth);
        (confirmation_input worth, "I said so YESTERDAY.")]) /\
  has_yes "I said so YESTERDAY." /\
  save_calls (new_events start (snd (scripted_ask yesterday no_faults france start)))
  = [(france, paris, true)].
Proof.
  split; [reflexivity|]. split; [reflexivity|]. split; [discriminate|].
  split; [reflexivity|].
  assert (Y : has_yes "I said so YESTERDAY.")
    by (apply contains_yes_iff; reflexivity).
  split; [exact Y|].
  apply (proj1 (confirmer_decides (scripted yesterday) no_faults
                  "InvalidRequestError" france start paris worth
                  "I said so YESTERDAY."
                  [(france, paris)]
                  [(france, paris); (analysis_input france paris, worth)]
                  [(france, paris); (analysis_input france paris, worth);
                   (confirmation_input worth, "I said so YESTERDAY.")]
                  eq_refl eq_refl ltac:(discriminate) eq_refl) Y).
Defined.

Lemma ask_returns_the_answer_witness :
  scripted declines agent1 france [] (self_memory start)
    = (inr paris, [(france, paris)]) /\
  fst (scripted_ask declines no_faults france start) = inr paris.
Proof.
  split; [reflexivity|].
  apply (proj2 (ask_returns_the_answer (scripted declines) no_faults
                  "InvalidRequestError" france start paris [(france, paris)]
                  eq_refl)
           worth [(france, paris); (analysis_input france paris, worth)]
           eq_refl).
  right. eexists _, _. split; [reflexivity|].
  left. apply no_yes. reflexivity.
Defined.

(** Against claim C4 as stated: the first agent has answered, yet
    [ask_question] raises, once because [commit] fails and once because
    the second agent does. *)
Lemma answered_but_ask_raises :
  scripted saves agent1 france [] (self_memory start)
    = (inr paris, [(france, paris)]) /\
  fst (scripted_ask saves commit_fails france start) = inl "StorageError" /\
  fst (scripted_ask analyzer_down no_faults france start)
    = inl "UpstreamGenerationError".
Proof. repeat split. Qed.

Lemma failed_save_witness :
  fst (scripted_save commit_fails france paris true start)
    = inl "StorageError" /\
  new_records start (snd (scripted_save commit_fails france paris true start))
    = [] /\
  fst (scripted_ask saves commit_fails france start) = inl "StorageError".
Proof.
  pose proof (failed_save (scripted saves) commit_fails "InvalidRequestError"
                france start) as [S A].
  split; [reflexivity|]. split.
  - apply (S paris true "StorageError" eq_refl). right; discriminate.
  - apply (A paris "StorageError" (saves_opens_gate) eq_refl).
Defined.

(** Against claim C5 as stated: [refresh] raises after [commit] has
    written the row; [save_memory] fails and the table has a new record. *)
Lemma failed_refresh_keeps_record :
  fst (scripted_save refresh_fails france paris true start)
    = inl "StorageError" /\
  new_records start (snd (scripted_save refresh_fails france paris true start))
    = [{| models.row_id := 1; models.row_question := Some france;
          models.row_response := Some paris;
          models.row_long_term := Some true |}].
Proof. split; reflexivity. Qed.

(** Against claim C6 as stated: every call is given the empty list as
    [history], and yet the prompt that the model is given for the answer,
    which the echoing model returns, holds the fact that the store
    holds. *)
Lemma store_reaches_the_prompt :
  let run := recalling_ask echo triples_kept france (knowing [fact]) in
  Forall (fun call => call.2 = [])
         (predict_calls (new_events (knowing [fact]) (snd run))) /\
  stage_prompt recall fill agent1 france [fact]
    = inr (fill (prompt agent1) fact france) /\
  fst run = inr (fill (prompt agent1) fact france) /\
  contains fact (fill (prompt agent1) fact france) = true /\
  contains fact (fill (prompt agent1) EmptyString france) = false.
Proof.
  split; [|repeat split].
  vm_compute. repeat constructor.
Qed.

Lemma history_keyword_is_replaced_witness :
  fst (recalling_ask says_paris triples_kept france (knowing [fact]))
    = inr paris /\
  exists context,
    recall [fact] france = inr context /\
    says_paris (fill (prompt agent1) context france) = inr paris.
Proof.
  split; [reflexivity|].
  apply (proj1 (proj2 (history_keyword_is_replaced recall fill says_paris
                         note triples_kept no_faults "InvalidRequestError"
                         france (knowing [fact]))) paris).
  reflexivity.
Defined.



Lemma saved_record_witness :
  fst (scripted_save no_faults france paris true start) = inr 0%nat /\
  exists m,
    heap (snd (scripted_save no_faults france paris true start)) !! 0%nat
      = Some m /\
    models.id m <> None /\
    models.question m = Some france /\
    models.response m = Some paris /\
    models.long_term m = Some true.
Proof.
  split; [reflexivity|].
  apply (proj1 (saved_record (scripted saves) no_faults "InvalidRequestError"
                  france paris true start 0%nat eq_refl)).
Defined.

Lemma session_is_closed_witness :
  fst (scripted_save commit_fails france paris true start)
    = inl "StorageError" /\
  sessions (snd (scripted_save commit_fails france paris true start))
    = [{| pending := []; closed := true |}] /\
  last (db_ops (new_events start
                  (snd (scripted_save commit_fails france paris true start))))
    = Some (0%nat, op_close) /\
  first_fault commit_fails = Some "StorageError".
Proof.
  pose proof (session_is_closed commit_fails "InvalidRequestError"
                france paris true start) as (S & C & F & _).
  split; [reflexivity|]. split; [exact S|]. split; [exact C|].
  exact (proj1 (F "StorageError" eq_refl)).
Defined.

(** ** The f-strings given to the agents *)

Lemma append_cons (c : ascii) (s t : string) :
  String c s +:+ t = String c (s +:+ t).
Proof. reflexivity. Qed.

Lemma append_assoc (a b c : string) : (a +:+ b) +:+ c = a +:+ (b +:+ c).
Proof.
  induction a as [|x a IH]; [reflexivity|].
  rewrite !append_cons. now rewrite IH.
Qed.

Lemma length_append (a b : string) :
  String.length (a +:+ b) = (String.length a + String.length b)%nat.
Proof.
  induction a as [|x a IH]; [reflexivity|].
  rewrite append_cons. simpl. now rewrite IH.
Qed.

Lemma append_cancel_r (a b t : string) : a +:+ t = b +:+ t -> a = b.
Proof.
  revert b; induction a as [|x a IH]; intros [|y b] H.
  - reflexivity.
  - apply (f_equal String.length) in H.
    rewrite !length_append in H. simpl in H. lia.
  - apply (f_equal String.length) in H.
    rewrite !length_append in H. simpl in H. lia.
  - rewrite !append_cons in H. injection H as -> H. now rewrite (IH b H).
Qed.

Lemma no_newline_cons (c : ascii) (s : string) :
  contains nl (String c s) = false ->
  c <> ascii_of_nat 10 /\ contains nl s = false.
Proof.
  cbn [contains]. rewrite orb_false_iff. intros [Hp Hs]. split; [|exact Hs].
  intros ->. destruct s; discriminate Hp.
Qed.

(** Up to its first line break, a text is determined by what follows
    it. *)
Lemma first_line_inj (a b x y : string) :
  contains nl a = false -> contains nl b = false ->
  a +:+ nl +:+ x = b +:+ nl +:+ y -> a = b /\ x = y.
Proof.
  revert b; induction a as [|c a IH]; intros [|d b] Ha Hb H.
  - split; [reflexivity|]. now injection H.
  - apply no_newline_cons in Hb as [Hd _].
    rewrite append_cons in H. injection H as Hc _. now symmetry in Hc.
  - apply no_newline_cons in Ha as [Hc _].
    rewrite append_cons in H. now injection H as Hd _.
  - apply no_newline_cons in Ha as [_ Ha].
    apply no_newline_cons in Hb as [_ Hb].
    rewrite !append_cons in H. injection H as -> H.
    destruct (IH b Ha Hb H) as [-> ->]. split; reflexivity.
Qed.

(** X6: for questions without a line break, the text that
    [analyze_response] gives to the second agent determines both the
    question and the response. *)
Theorem analysis_input_injective (q1 r1 q2 r2 : string) :
  contains nl q1 = false -> contains nl q2 = false ->
  analysis_input q1 r1 = analysis_input q2 r2 ->
  q1 = q2 /\ r1 = r2.
Proof.
  intros H1 H2 H. unfold analysis_input in H.
  injection H as H.
  apply first_line_inj in H as [-> H]; [|assumption..].
  split; [reflexivity|].
  injection H as H.
  apply (append_cancel_r r1 r2 (nl +:+ "Should this be remembered?")).
  exact H.
Qed.

(** X7: with a line break in the question the same text can stand for two
    different exchanges: what follows [Response: ] inside the question
    reads as the response. *)
Theorem analysis_input_collision (a b c : string) :
  analysis_input (a +:+ nl +:+ "Response: " +:+ b) c
  = analysis_input a (b +:+ nl +:+ "Response: " +:+ c) /\
  a +:+ nl +:+ "Response: " +:+ b <> a.
Proof.
  split.
  - unfold analysis_input. now rewrite !append_assoc.
  - intros H. apply (f_equal String.length) in H.
    rewrite length_append in H. simpl in H. lia.
Qed.

(** X8: the text that [confirm_memory] gives to the third agent
    determines the analysis. *)
Theorem confirmation_input_injective (a1 a2 : string) :
  confirmation_input a1 = confirmation_input a2 -> a1 = a2.
Proof.
  unfold confirmation_input. intros H. injection H as H.
  apply (append_cancel_r a1 a2 (nl +:+ "Is this a valid memory?")).
  exact H.
Qed.

(** X9: a confirmation that contains, anywhere, a text on which
    [confirm_memory] saves is itself one on which it saves. *)
Theorem yes_inside (pre c post : string) :
  contains "yes" (lower c) = true ->
  contains "yes" (lower (pre +:+ c +:+ post)) = true.
Proof.
  rewrite !contains_yes_iff. intros (p & m & q & -> & Hm).
  exists (pre +:+ p), m, (q +:+ post). split; [|exact Hm].
  now rewrite !append_assoc.
Qed.

(** ** What the pipeline keeps *)

Lemma find_other_row (table : list models.Row) (r : models.Row) (j : Z) :
  j <> models.row_id r ->
  List.find (fun x => (models.row_id x =? j)%Z) (table ++ [r])
  = List.find (fun x => (models.row_id x =? j)%Z) table.
Proof.
  intros Hj. induction table as [|x t IH]; simpl.
  - destruct (Z.eqb_spec (models.row_id r) j); [congruence | reflexivity].
  - destruct (models.row_id x =? j)%Z; [reflexivity | exact IH].
Qed.

Section Composition.

Context {Store BaseMessage Exn : Type}.
Variable chain_predict :
  ConversationChain -> string -> list BaseMessage -> Store ->
  (Exn + string) * Store.
Variable faults : @Faults Exn.
Variable InvalidRequestError : Exn.

Abbreviation World := (@World Store BaseMessage).
Abbreviation save :=
  (@save_memory Store BaseMessage Exn faults InvalidRequestError).
Abbreviation confirm :=
  (@confirm_memory Store BaseMessage Exn chain_predict faults
     InvalidRequestError).
Abbreviation ask :=
  (@ask_question Store BaseMessage Exn chain_predict faults
     InvalidRequestError).

Ltac stage_cases :=
  rewrite ask_question_run; simpl;
  destruct (chain_predict agent1 _ _ _) as [[?e|?response] ?s1]; simpl;
  [| destruct (chain_predict agent2 _ _ _) as [[?e|?analysis] ?s2]; simpl;
     [| destruct (truthy _);
        [ rewrite confirm_memory_run; simpl;
          destruct (chain_predict agent3 _ _ _)
            as [[?e|?confirmation] ?s3]; simpl;
          [| destruct (contains _ _);
             [ rewrite save_memory_run; simpl |] ]
        |] ] ].

Ltac insert_cases :=
  destruct (add_raises faults) as [?e|] eqn:?Fa; simpl;
  [| destruct (commit_raises faults) as [?e|] eqn:?Fc; simpl;
     [| destruct (refresh_raises faults) as [?e|] eqn:?Fr; simpl ] ].

Ltac new_log :=
  unfold new_events; simpl; rewrite <- ?app_assoc; rewrite drop_app_length;
  simpl.

(** X1: one call of [ask_question] leaves the rows of the table as they
    were and adds at most one; a row it adds has the question asked and
    [long_term = true]. *)
Theorem table_append_only (question : string) (w : World) :
  exists rows,
    memories (snd (ask question w)) = memories w ++ rows /\
    (length rows <= 1)%nat /\
    Forall (fun r => models.row_question r = Some question /\
                     models.row_long_term r = Some true) rows.
Proof.
  stage_cases; try insert_cases;
    first [ exists []; split; [now rewrite app_nil_r|];
            split; [simpl; lia | constructor]
          | eexists [_]; split; [reflexivity|];
            split; [simpl; lia | repeat constructor] ].
Qed.

(** X2: one call of [ask_question] opens as many sessions as it calls
    [save_memory], and leaves each of them closed with nothing pending;
    the sessions, the objects and the log that were there stay as they
    were. *)
Theorem sessions_do_not_leak (question : string) (w : World) :
  let w' := snd (ask question w) in
  (exists opened,
     sessions w' = sessions w ++ opened /\
     Forall (fun s => closed s = true /\ pending s = []) opened /\
     length opened = length (save_calls (new_events w w'))) /\
  (exists objects, heap w' = heap w ++ objects) /\
  (exists events, log w' = log w ++ events).
Proof.
  stage_cases; try insert_cases; (split; [|split]).
  all: try (exists []; split; [now rewrite app_nil_r|];
            split; [constructor | now new_log]).
  all: try (eexists [_]; split; [reflexivity|];
            split; [repeat constructor | now new_log]).
  all: try (exists []; now rewrite app_nil_r).
  all: try (eexists [_]; reflexivity).
  all: rewrite <- ?app_assoc; eexists; reflexivity.
Qed.

(** X3: after a successful [save_memory] the primary key of the object
    returned finds, in the table, the row of the three arguments; no row
    that was there has this key, and every other key finds what it found
    before. *)
Theorem save_then_find (question response : string) (long_term : bool)
                       (w : World) (obj : nat) :
  fst (save question response long_term w) = inr obj ->
  let w' := snd (save question response long_term w) in
  exists m i,
    heap w' !! obj = Some m /\ models.id m = Some i /\
    List.find (fun r => (models.row_id r =? i)%Z) (memories w')
    = Some {| models.row_id := i;
              models.row_question := Some question;
              models.row_response := Some response;
              models.row_long_term := Some long_term |} /\
    (forall r, In r (memories w) -> models.row_id r <> i) /\
    (forall j, j <> i ->
       List.find (fun r => (models.row_id r =? j)%Z) (memories w')
       = List.find (fun r => (models.row_id r =? j)%Z) (memories w)).
Proof.
  rewrite save_memory_run. simpl.
  insert_cases; intros H; simplify_eq.
  unfold after_save; simpl. rewrite lookup_snoc.
  eexists _, (models.fresh_id (memories w)).
  split; [reflexivity|]. split; [reflexivity|]. split; [|split].
  - now apply find_new_row.
  - intros r Hr. apply fresh_id_above in Hr. lia.
  - intros j Hj. now apply find_other_row.
Qed.

Lemma open_gate_memories (question response : string) (w : World) :
  gate_open chain_predict question w response ->
  add_raises faults = None -> commit_raises faults = None ->
  memories (snd (ask question w))
  = memories w ++ [saved_row (memories w) question response true].
Proof.
  intros (s1 & a & s2 & c & s3 & G1 & G2 & Ga & G3 & Gy) Fa Fc.
  rewrite ask_question_run; simpl. rewrite G1; simpl. rewrite G2; simpl.
  apply truthy_iff in Ga; rewrite Ga.
  rewrite confirm_memory_run; simpl. rewrite G3; simpl.
  apply contains_yes_iff in Gy; rewrite Gy.
  rewrite save_memory_run; simpl. rewrite Fa, Fc.
  destruct (refresh_raises faults); reflexivity.
Qed.

(** X4: records are not told apart by their question: when the save-gate
    opens on the same question twice in a row, the table gains two rows
    with that question, one for each response. *)
Theorem asked_twice_saved_twice (question first second : string)
                                (w : World) :
  gate_open chain_predict question w first ->
  gate_open chain_predict question (snd (ask question w)) second ->
  add_raises faults = None -> commit_raises faults = None ->
  exists row1 row2,
    memories (snd (ask question (snd (ask question w))))
    = memories w ++ [row1; row2] /\
    models.row_question row1 = Some question /\
    models.row_response row1 = Some first /\
    models.row_long_term row1 = Some true /\
    models.row_question row2 = Some question /\
    models.row_response row2 = Some second /\
    models.row_long_term row2 = Some true.
Proof.
  intros G1 G2 Fa Fc.
  rewrite (open_gate_memories _ _ _ G2 Fa Fc).
  rewrite (open_gate_memories _ _ _ G1 Fa Fc).
  eexists _, _. split; [now rewrite <- app_assoc|].
  repeat split.
Qed.

(** X5: [confirm_memory] asks the third agent whatever the analysis is,
    the empty one too, and gives it the analysis alone: with another
    question and response the agent is called on the same text, as many
    records are saved and the call ends the same way. *)
Theorem confirm_memory_sees_analysis_only
    (analysis q1 r1 q2 r2 : string) (w : World) :
  let run1 := confirm analysis q1 r1 w in
  let run2 := confirm analysis q2 r2 w in
  predict_calls (new_events w (snd run1))
    = [(agent3, confirmation_input analysis, [])] /\
  predict_calls (new_events w (snd run2))
    = [(agent3, confirmation_input analysis, [])] /\
  length (save_calls (new_events w (snd run1)))
    = length (save_calls (new_events w (snd run2))) /\
  fst run1 = fst run2.
Proof.
  simpl. rewrite !confirm_memory_run. simpl.
  destruct (chain_predict agent3 _ _ _) as [[e|confirmation] s3]; simpl;
    [| destruct (contains _ _);
       [ rewrite !save_memory_run; simpl; insert_cases |] ].
  all: repeat split; try reflexivity.
  all: unfold new_events; simpl; rewrite <- ?app_assoc, ?drop_app_length;
    reflexivity.
Qed.

(** X12: within one call of [ask_question] the database comes last:
    the calls of the agents all precede the call of [save_memory] and the
    operations of its session, and these happen only once all three
    agents have been called. *)
Theorem database_comes_last (question : string) (w : World) :
  exists stages rest,
    new_events w (snd (ask question w)) = stages ++ rest /\
    db_ops stages = [] /\ save_calls stages = [] /\
    predict_calls rest = [] /\
    (rest <> [] -> length (predict_calls stages) = 3%nat).
Proof.
  stage_cases; try insert_cases; new_log;
    first [ eexists [_; _; _], (_ :: _); split; [reflexivity|];
            repeat split
          | eexists _, []; split; [now rewrite app_nil_r|];
            repeat split; intros; congruence ].
Qed.

End Composition.

(** ** The endpoint *)

Section EndpointFacts.

Context {Store BaseMessage Exn : Type}.
Variable chain_predict :
  ConversationChain -> string -> list BaseMessage -> Store ->
  (Exn + string) * Store.
Variable faults : @Faults Exn.
Variable InvalidRequestError : Exn.
Variable new_memory : Store.

Abbreviation World := (@World Store BaseMessage).
Abbreviation post :=
  (@endpoints.ask_question Store BaseMessage Exn chain_predict faults
     InvalidRequestError new_memory).

(** X10: a request is answered from its [question] field and from what
    the database and the log hold: neither the [response] field of the
    body nor the store that earlier requests left makes a difference to
    the outcome or to the world it leaves. *)
Theorem request_starts_afresh (body1 body2 : schemas.MemoryBase)
                              (w1 w2 : World) :
  schemas.question body1 = schemas.question body2 ->
  heap w1 = heap w2 -> sessions w1 = sessions w2 ->
  memories w1 = memories w2 -> log w1 = log w2 ->
  post body1 w1 = post body2 w2.
Proof.
  intros Hq Hh Hs Hm Hl.
  unfold endpoints.ask_question, endpoints.LangChainService, bind, modify.
  simpl. rewrite Hq.
  replace (set_self_memory new_memory w1) with (set_self_memory new_memory w2);
    [reflexivity|].
  unfold set_self_memory. now rewrite Hh, Hs, Hm, Hl.
Qed.

(** X11: what a request returns is the dict with the one key [response],
    bound to the text that the first agent generated for the question on
    a new store. *)
Theorem request_returns_the_answer (body : schemas.MemoryBase) (w : World)
                                   (result : list (string * string)) :
  fst (post body w) = inr result ->
  exists text s1,
    chain_predict agent1 (schemas.question body) [] new_memory
      = (inr text, s1) /\
    result = [("response", text)].
Proof.
  unfold endpoints.ask_question, endpoints.LangChainService, bind, modify.
  simpl. rewrite ask_question_run. simpl.
  destruct (chain_predict agent1 _ _ _) as [[e|text] s1]; simpl;
    [discriminate|].
  destruct (chain_predict agent2 _ _ _) as [[e|analysis] s2]; simpl;
    [discriminate|].
  destruct (truthy analysis); simpl.
  - destruct (confirm_memory _ _ _ _ _ _ _) as [[e|u] w3]; simpl;
      [discriminate|].
    intros [= <-]. now exists text, s1.
  - intros [= <-]. now exists text, s1.
Qed.

End EndpointFacts.

(** ** The further properties, on scripted runs *)

Lemma analysis_input_injective_witness :
  contains nl france = false /\
  analysis_input france paris = analysis_input france paris /\
  france = france /\ paris = paris.
Proof.
  split; [reflexivity|]. split; [reflexivity|].
  apply (analysis_input_injective france paris france paris);
    reflexivity.
Defined.

Lemma confirmation_input_injective_witness :
  confirmation_input worth = confirmation_input worth /\ worth = worth.
Proof.
  split; [reflexivity|].
  apply (confirmation_input_injective worth worth). reflexivity.
Defined.

Lemma yes_inside_witness :
  contains "yes" (lower "Yes") = true /\
  contains "yes" (lower ("No. The analysis said: " +:+ "Yes" +:+ "."))
  = true.
Proof.
  split; [reflexivity|].
  apply (yes_inside "No. The analysis said: " "Yes" "."). reflexivity.
Defined.

Lemma save_then_find_witness :
  fst (scripted_save no_faults france paris false start) = inr 0%nat /\
  exists m i,
    heap (snd (scripted_save no_faults france paris false start)) !! 0%nat
      = Some m /\
    models.id m = Some i /\
    List.find (fun r => (models.row_id r =? i)%Z)
      (memories (snd (scripted_save no_faults france paris false start)))
    = Some {| models.row_id := i;
              models.row_question := Some france;
              models.row_response := Some paris;
              models.row_long_term := Some false |}.
Proof.
  split; [reflexivity|].
  destruct (save_then_find no_faults "InvalidRequestError" france paris
              false start 0%nat eq_refl) as (m & i & Hm & Hi & Hf & _).
  exists m, i. auto.
Defined.

Lemma saves_opens_gate_again :
  gate_open (scripted saves) france
    (snd (scripted_ask saves no_faults france start)) paris.
Proof.
  eexists _, _, _, _, _.
  split; [reflexivity|]. split; [reflexivity|]. split; [discriminate|].
  split; [reflexivity|]. apply contains_yes_iff; reflexivity.
Qed.

Lemma asked_twice_saved_twice_witness :
  gate_open (scripted saves) france start paris /\
  gate_open (scripted saves) france
    (snd (scripted_ask saves no_faults france start)) paris /\
  exists row1 row2,
    memories (snd (scripted_ask saves no_faults france
                     (snd (scripted_ask saves no_faults france start))))
    = memories start ++ [row1; row2] /\
    models.row_question row1 = Some france /\
    models.row_response row1 = Some paris /\
    models.row_long_term row1 = Some true /\
    models.row_question row2 = Some france /\
    models.row_response row2 = Some paris /\
    models.row_long_term row2 = Some true.
Proof.
  split; [apply saves_opens_gate|]. split; [apply saves_opens_gate_again|].
  apply (asked_twice_saved_twice (scripted saves) no_faults
           "InvalidRequestError" france paris paris start
           saves_opens_gate saves_opens_gate_again eq_refl eq_refl).
Defined.

Lemma request_starts_afresh_witness :
  scripted_post saves no_faults
    {| schemas.question := france; schemas.response := "anything" |} start
  = scripted_post saves no_faults
      {| schemas.question := france; schemas.response := EmptyString |}
      (set_self_memory [(france, paris)] start).
Proof.
  apply (request_starts_afresh (scripted saves) no_faults
           "InvalidRequestError" []); reflexivity.
Defined.

Lemma request_returns_the_answer_witness :
  fst (scripted_post declines no_faults
         {| schemas.question := france; schemas.response := EmptyString |}
         start)
  = inr [("response", paris)] /\
  exists text s1,
    scripted declines agent1 france [] [] = (inr text, s1) /\
    [("response", paris)] = [("response", text)].
Proof.
  split; [reflexivity|].
  apply (request_returns_the_answer (scripted declines) no_faults
           "InvalidRequestError" []
           {| schemas.question := france; schemas.response := EmptyString |}
           start [("response", paris)]).
  reflexivity.
Defined.
